(** * txt::FontCollection: the registry of font managers and its cached
      Skia font collection (engine/src/flutter/txt/src/txt/font_collection.cc)

    The registry holds four nullable [sk_sp<SkFontMgr>] slots, the flag
    [enable_font_fallback_] and a nullable [sk_sp] to a
    [skia::textlayout::FontCollection] that [CreateSktFontCollection] builds
    on demand.  The Skia object lives on the heap and is shared with whoever
    called [CreateSktFontCollection], so the model keeps an explicit store of
    Skia collections next to the registry's own fields, and every method is a
    state transformer over both. *)

From stdpp Require Import base option list strings.

Set Default Proof Using "Type".

(** ** Handles *)

(** [SkFontMgr] objects are opaque to this file: only their identity is
    used.  [sk_sp<T>] is a nullable shared pointer. *)
Definition SkFontMgr : Type := positive.
Definition SkTypeface : Type := positive.
Abbreviation sk_sp T := (option T) (only parsing).

(** Identity of a [skia::textlayout::FontCollection]: its rank among the
    objects made by [sk_make_sp], which is also its index in the store. *)
Abbreviation addr := nat (only parsing).

(** ** The Skia collection *)

Module skt.

(** Modelled from the spec: [skia::textlayout::FontCollection] is Skia's
    class, of which font_collection.cc only calls the methods.  The spec (3,
    4.1, 6) describes it as built from the four provider handles, the default
    family list and the fallback flag, with a live fallback toggle and
    per-family lookup caches that [clearCaches] drops.  A new object has no
    manager wired, no default family, fallback enabled and empty caches. *)
Record FontCollection : Type := mkFontCollection {
  fDefaultFontManager : sk_sp SkFontMgr;
  fAssetFontManager : sk_sp SkFontMgr;
  fDynamicFontManager : sk_sp SkFontMgr;
  fTestFontManager : sk_sp SkFontMgr;
  fDefaultFamilyNames : list string;
  fEnableFontFallback : bool;
  fTypefaces : list (string * list SkTypeface)
}.

Definition make : FontCollection :=
  mkFontCollection None None None None [] true [].

Definition setDefaultFontManager (font_manager : sk_sp SkFontMgr)
    (defaultFamilyNames : list string) (c : FontCollection) : FontCollection :=
  mkFontCollection font_manager (fAssetFontManager c) (fDynamicFontManager c)
    (fTestFontManager c) defaultFamilyNames (fEnableFontFallback c)
    (fTypefaces c).

Definition setAssetFontManager (font_manager : sk_sp SkFontMgr)
    (c : FontCollection) : FontCollection :=
  mkFontCollection (fDefaultFontManager c) font_manager (fDynamicFontManager c)
    (fTestFontManager c) (fDefaultFamilyNames c) (fEnableFontFallback c)
    (fTypefaces c).

Definition setDynamicFontManager (font_manager : sk_sp SkFontMgr)
    (c : FontCollection) : FontCollection :=
  mkFontCollection (fDefaultFontManager c) (fAssetFontManager c) font_manager
    (fTestFontManager c) (fDefaultFamilyNames c) (fEnableFontFallback c)
    (fTypefaces c).

Definition setTestFontManager (font_manager : sk_sp SkFontMgr)
    (c : FontCollection) : FontCollection :=
  mkFontCollection (fDefaultFontManager c) (fAssetFontManager c)
    (fDynamicFontManager c) font_manager (fDefaultFamilyNames c)
    (fEnableFontFallback c) (fTypefaces c).

Definition disableFontFallback (c : FontCollection) : FontCollection :=
  mkFontCollection (fDefaultFontManager c) (fAssetFontManager c)
    (fDynamicFontManager c) (fTestFontManager c) (fDefaultFamilyNames c)
    false (fTypefaces c).

Definition clearCaches (c : FontCollection) : FontCollection :=
  mkFontCollection (fDefaultFontManager c) (fAssetFontManager c)
    (fDynamicFontManager c) (fTestFontManager c) (fDefaultFamilyNames c)
    (fEnableFontFallback c) [].

(** The provider wiring of a collection: everything but its caches. *)
Definition wiring (c : FontCollection) :=
  (fDefaultFontManager c, fAssetFontManager c, fDynamicFontManager c,
   fTestFontManager c, fDefaultFamilyNames c, fEnableFontFallback c).

End skt.

(** ** The platform (txt/platform.h) *)

(** [GetDefaultFontManager] and [GetDefaultFontFamilies] are declared in
    txt/platform.h and defined per platform; the registry only calls them, so
    they are parameters of the development. *)
Record Platform : Type := mkPlatform {
  GetDefaultFontManager : Z -> sk_sp SkFontMgr;
  GetDefaultFontFamilies : list string
}.

(** ** The registry *)

Module txt.

Record FontCollection : Type := mkFontCollection {
  default_font_manager_ : sk_sp SkFontMgr;
  asset_font_manager_ : sk_sp SkFontMgr;
  dynamic_font_manager_ : sk_sp SkFontMgr;
  test_font_manager_ : sk_sp SkFontMgr;
  enable_font_fallback_ : bool;
  skt_collection_ : sk_sp addr
}.

(** The registry [self] together with the store of Skia collections made so
    far.  A collection released by [skt_collection_.reset()] stays in the
    store: the callers of [CreateSktFontCollection] may still hold it. *)
Record World : Type := mkWorld {
  self : FontCollection;
  store : list skt.FontCollection
}.

(** *** State monad over [World] *)

Definition M (A : Type) : Type := World -> A * World.

Definition ret {A : Type} (a : A) : M A := fun w => (a, w).

Definition bind {A B : Type} (m : M A) (k : A -> M B) : M B :=
  fun w => let (a, w') := m w in k a w'.

Declare Scope method_scope.
Delimit Scope method_scope with method.
Notation "x <- m ;; k" := (bind m (fun x => k))
  (at level 100, m at next level, right associativity) : method_scope.
Notation "m ;; k" := (bind m (fun _ => k))
  (at level 100, right associativity) : method_scope.
Local Open Scope method_scope.

Definition this : M FontCollection := fun w => (self w, w).

Definition assign (f : FontCollection -> FontCollection) : M unit :=
  fun w => (tt, mkWorld (f (self w)) (store w)).

(** [sk_make_sp<skia::textlayout::FontCollection>()] *)
Definition sk_make_sp : M addr :=
  fun w => (length (store w), mkWorld (self w) (store w ++ [skt.make])).

(** [p->method(...)] on the collection at [p] *)
Definition call (p : addr) (method : skt.FontCollection -> skt.FontCollection)
    : M unit :=
  fun w => (tt, mkWorld (self w) (alter method p (store w))).

(** *** Field assignments *)

Definition set_default_font_manager_ (v : sk_sp SkFontMgr) (r : FontCollection) :=
  mkFontCollection v (asset_font_manager_ r) (dynamic_font_manager_ r)
    (test_font_manager_ r) (enable_font_fallback_ r) (skt_collection_ r).

Definition set_asset_font_manager_ (v : sk_sp SkFontMgr) (r : FontCollection) :=
  mkFontCollection (default_font_manager_ r) v (dynamic_font_manager_ r)
    (test_font_manager_ r) (enable_font_fallback_ r) (skt_collection_ r).

Definition set_dynamic_font_manager_ (v : sk_sp SkFontMgr) (r : FontCollection) :=
  mkFontCollection (default_font_manager_ r) (asset_font_manager_ r) v
    (test_font_manager_ r) (enable_font_fallback_ r) (skt_collection_ r).

Definition set_test_font_manager_ (v : sk_sp SkFontMgr) (r : FontCollection) :=
  mkFontCollection (default_font_manager_ r) (asset_font_manager_ r)
    (dynamic_font_manager_ r) v (enable_font_fallback_ r) (skt_collection_ r).

Definition set_enable_font_fallback_ (v : bool) (r : FontCollection) :=
  mkFontCollection (default_font_manager_ r) (asset_font_manager_ r)
    (dynamic_font_manager_ r) (test_font_manager_ r) v (skt_collection_ r).

Definition set_skt_collection_ (v : sk_sp addr) (r : FontCollection) :=
  mkFontCollection (default_font_manager_ r) (asset_font_manager_ r)
    (dynamic_font_manager_ r) (test_font_manager_ r) (enable_font_fallback_ r) v.

(** *** Methods *)

(** [FontCollection::FontCollection() : enable_font_fallback_(true) {}]; the
    [sk_sp] members are null. *)
Definition new : FontCollection :=
  mkFontCollection None None None None true None.

(** [push_back] when the slot is not null *)
Definition push_back_if (slot : sk_sp SkFontMgr) (order : list SkFontMgr)
    : list SkFontMgr :=
  match slot with
  | Some m => order ++ [m]
  | None => order
  end.

Definition GetFontManagerOrder (r : FontCollection) : list SkFontMgr :=
  let order := [] in
  let order := push_back_if (dynamic_font_manager_ r) order in
  let order := push_back_if (asset_font_manager_ r) order in
  let order := push_back_if (test_font_manager_ r) order in
  let order := push_back_if (default_font_manager_ r) order in
  order.

Definition GetFontManagersCount (r : FontCollection) : nat :=
  length (GetFontManagerOrder r).

Section Methods.
Context (platform : Platform).

Definition SetupDefaultFontManager (font_initialization_data : Z) : M unit :=
  assign (set_default_font_manager_
            (GetDefaultFontManager platform font_initialization_data)) ;;
  assign (set_skt_collection_ None).

Definition SetDefaultFontManager (font_manager : sk_sp SkFontMgr) : M unit :=
  assign (set_default_font_manager_ font_manager) ;;
  assign (set_skt_collection_ None).

Definition SetAssetFontManager (font_manager : sk_sp SkFontMgr) : M unit :=
  assign (set_asset_font_manager_ font_manager) ;;
  assign (set_skt_collection_ None).

Definition SetDynamicFontManager (font_manager : sk_sp SkFontMgr) : M unit :=
  assign (set_dynamic_font_manager_ font_manager) ;;
  assign (set_skt_collection_ None).

Definition SetTestFontManager (font_manager : sk_sp SkFontMgr) : M unit :=
  assign (set_test_font_manager_ font_manager) ;;
  assign (set_skt_collection_ None).

Definition DisableFontFallback : M unit :=
  assign (set_enable_font_fallback_ false) ;;
  r <- this ;;
  match skt_collection_ r with
  | Some p => call p skt.disableFontFallback
  | None => ret tt
  end.

Definition ClearFontFamilyCache : M unit :=
  r <- this ;;
  match skt_collection_ r with
  | Some p => call p skt.clearCaches
  | None => ret tt
  end.

Definition CreateSktFontCollection : M (sk_sp addr) :=
  r <- this ;;
  match skt_collection_ r with
  | None =>
      p <- sk_make_sp ;;
      assign (set_skt_collection_ (Some p)) ;;
      let default_font_families := GetDefaultFontFamilies platform in
      call p (skt.setDefaultFontManager (default_font_manager_ r)
                default_font_families) ;;
      call p (skt.setAssetFontManager (asset_font_manager_ r)) ;;
      call p (skt.setDynamicFontManager (dynamic_font_manager_ r)) ;;
      call p (skt.setTestFontManager (test_font_manager_ r)) ;;
      if negb (enable_font_fallback_ r)
      then call p skt.disableFontFallback
      else ret tt
  | Some _ => ret tt
  end ;;
  r <- this ;;
  ret (skt_collection_ r).

(** The collection that the build branch of [CreateSktFontCollection]
    leaves at the new address: the wiring calls applied in source order. *)
Definition built (r : FontCollection) : skt.FontCollection :=
  let c := skt.make in
  let c := skt.setDefaultFontManager (default_font_manager_ r)
             (GetDefaultFontFamilies platform) c in
  let c := skt.setAssetFontManager (asset_font_manager_ r) c in
  let c := skt.setDynamicFontManager (dynamic_font_manager_ r) c in
  let c := skt.setTestFontManager (test_font_manager_ r) c in
  if negb (enable_font_fallback_ r) then skt.disableFontFallback c else c.

(** *** The public interface as a transition system *)

(** The five methods that assign a provider slot. *)
Inductive Mutator : Type :=
| MSetupDefaultFontManager (font_initialization_data : Z)
| MSetDefaultFontManager (font_manager : sk_sp SkFontMgr)
| MSetAssetFontManager (font_manager : sk_sp SkFontMgr)
| MSetDynamicFontManager (font_manager : sk_sp SkFontMgr)
| MSetTestFontManager (font_manager : sk_sp SkFontMgr).

Inductive Op : Type :=
| OMutate (mu : Mutator)
| ODisableFontFallback
| OClearFontFamilyCache
| OCreateSktFontCollection.

Definition mutate (mu : Mutator) : M unit :=
  match mu with
  | MSetupDefaultFontManager data => SetupDefaultFontManager data
  | MSetDefaultFontManager m => SetDefaultFontManager m
  | MSetAssetFontManager m => SetAssetFontManager m
  | MSetDynamicFontManager m => SetDynamicFontManager m
  | MSetTestFontManager m => SetTestFontManager m
  end.

Definition step (o : Op) : M unit :=
  match o with
  | OMutate mu => mutate mu
  | ODisableFontFallback => DisableFontFallback
  | OClearFontFamilyCache => ClearFontFamilyCache
  | OCreateSktFontCollection => CreateSktFontCollection ;; ret tt
  end.

Fixpoint run (ops : list Op) : M unit :=
  match ops with
  | [] => ret tt
  | o :: ops => step o ;; run ops
  end.

(** [n] consecutive calls of a method, results in call order. *)
Fixpoint consecutive {A : Type} (n : nat) (m : M A) : M (list A) :=
  match n with
  | O => ret []
  | S n => a <- m ;; l <- consecutive n m ;; ret (a :: l)
  end.

End Methods.

(** [FontCollection::~FontCollection()]: the caches of the collection still
    held are cleared; the members are released afterwards. *)
Definition destroy : M unit :=
  r <- this ;;
  match skt_collection_ r with
  | Some p => call p skt.clearCaches
  | None => ret tt
  end.

(** The world a method leaves, and the value it returns. *)
Definition after {A : Type} (m : M A) (w : World) : World := snd (m w).
Definition result {A : Type} (m : M A) (w : World) : A := fst (m w).

(** *** Slots by name *)

Inductive Slot : Type := Dynamic | Asset | Test | Default.

Global Instance Slot_eq_dec : EqDecision Slot.
Proof. solve_decision. Defined.

Definition slot (s : Slot) (r : FontCollection) : sk_sp SkFontMgr :=
  match s with
  | Dynamic => dynamic_font_manager_ r
  | Asset => asset_font_manager_ r
  | Test => test_font_manager_ r
  | Default => default_font_manager_ r
  end.

(** The slot of a Skia collection that a registry slot is wired to. *)
Definition wired (s : Slot) (c : skt.FontCollection) : sk_sp SkFontMgr :=
  match s with
  | Dynamic => skt.fDynamicFontManager c
  | Asset => skt.fAssetFontManager c
  | Test => skt.fTestFontManager c
  | Default => skt.fDefaultFontManager c
  end.

(** The slot a mutator assigns, and the handle it stores there. *)
Definition target (mu : Mutator) : Slot :=
  match mu with
  | MSetupDefaultFontManager _ | MSetDefaultFontManager _ => Default
  | MSetAssetFontManager _ => Asset
  | MSetDynamicFontManager _ => Dynamic
  | MSetTestFontManager _ => Test
  end.

Definition assigned (platform : Platform) (mu : Mutator) : sk_sp SkFontMgr :=
  match mu with
  | MSetupDefaultFontManager data => GetDefaultFontManager platform data
  | MSetDefaultFontManager m | MSetAssetFontManager m
  | MSetDynamicFontManager m | MSetTestFontManager m => m
  end.

(** The handle a slot holds after a sequence of mutators: the one stored by
    the last mutator that targets the slot, or the one it held before. *)
Fixpoint last_assigned (platform : Platform) (s : Slot) (mus : list Mutator)
    (v : option SkFontMgr) : option SkFontMgr :=
  match mus with
  | [] => v
  | mu :: mus =>
      last_assigned platform s mus
        (if decide (s = target mu) then assigned platform mu else v)
  end.

(** *** The spec's wording of the two queries *)

(** "fixed priority order: dynamic, then asset, then test, then default" *)
Definition priority : list Slot := [Dynamic; Asset; Test; Default].

(** ComputeProviderOrder: "the ordered sequence of non-empty provider handles
    in fixed priority order ... Empty slots are skipped". *)
Definition ComputeProviderOrder (r : FontCollection) : list SkFontMgr :=
  omap (fun s => slot s r) priority.

(** CountProviders: "the number of non-empty provider slots currently
    configured". *)
Definition CountProviders (r : FontCollection) : nat :=
  length (filter (fun s => is_Some (slot s r)) priority).

End txt.

Import txt.
Local Open Scope method_scope.

(** ** Invariants of the reachable worlds *)

(** The cached pointer, when set, points into the store. *)
Definition cache_valid (w : World) : Prop :=
  forall p : addr, skt_collection_ (self w) = Some p -> p < length (store w).

(** Fallback is off for good: the flag is cleared, the cached collection has
    fallback disabled, and so has every collection made at or after address
    [k]. *)
Definition fallback_off (k : addr) (w : World) : Prop :=
  enable_font_fallback_ (self w) = false
  /\ (forall p : addr,
        skt_collection_ (self w) = Some p ->
        skt.fEnableFontFallback <$> store w !! p = Some false)
  /\ (forall (q : addr) (c : skt.FontCollection),
        k <= q -> store w !! q = Some c -> skt.fEnableFontFallback c = false).

(** The cached collection, when there is one, is what a build from the
    registry's present fields would give, caches apart. *)
Definition coherent (P : Platform) (w : World) : Prop :=
  forall p : addr,
    skt_collection_ (self w) = Some p ->
    exists c : skt.FontCollection,
      store w !! p = Some c
      /\ (forall s : Slot, wired s c = slot s (self w))
      /\ skt.fDefaultFamilyNames c = GetDefaultFontFamilies P
      /\ skt.fEnableFontFallback c = enable_font_fallback_ (self w).

(** Counting the operations of a run by kind. *)
Definition is_mutator (o : Op) : bool :=
  match o with OMutate _ => true | _ => false end.

Definition is_create (o : Op) : bool :=
  match o with OCreateSktFontCollection => true | _ => false end.

Definition mutators (ops : list Op) : nat := length (filter is_mutator ops).
Definition creates (ops : list Op) : nat := length (filter is_create ops).

(** Collections made so far, plus one when the next
    [CreateSktFontCollection] would make another. *)
Definition demand (w : World) : nat :=
  length (store w)
  + match skt_collection_ (self w) with Some _ => 0 | None => 1 end.

(** ** Sample data *)

Definition sample_platform : Platform :=
  mkPlatform (fun data => if decide (data = 0)%Z then None else Some 40%positive)
             ["Roboto"; "sans-serif"].

(** A registry with the asset and default slots set and nothing built. *)
Definition sample_unbuilt : World :=
  mkWorld (txt.mkFontCollection (Some 4%positive) (Some 2%positive) None None
             true None) [].

(** The same registry after one [CreateSktFontCollection] and a lookup that
    the shaper memoized in the collection. *)
Definition sample_built : World :=
  mkWorld (txt.mkFontCollection (Some 4%positive) (Some 2%positive) None None
             true (Some 0))
          [skt.mkFontCollection (Some 4%positive) (Some 2%positive) None None
             ["Roboto"; "sans-serif"] true [("Roboto", [7%positive])]].

(** ** Store lemmas *)

Lemma alter_snoc {A : Type} (f : A -> A) (l : list A) (x : A) :
  alter f (length l) (l ++ [x]) = l ++ [f x].
Proof. induction l as [|y l IH]; simpl; [done | by f_equal]. Qed.

Lemma lookup_snoc_new {A : Type} (l : list A) (x : A) :
  (l ++ [x]) !! length l = Some x.
Proof. induction l as [|y l IH]; simpl; done. Qed.

Lemma lookup_alter_at {A : Type} (f : A -> A) (l : list A) (i : nat) (x : A) :
  l !! i = Some x -> alter f i l !! i = Some (f x).
Proof. intros Hx. by rewrite list_lookup_alter_eq, Hx. Qed.

Lemma omap_pointwise {A B : Type} (f g : A -> option B) (l : list A) :
  (forall x, f x = g x) -> omap f l = omap g l.
Proof.
  intros Hfg. induction l as [|x l IH]; [done|].
  simpl. rewrite Hfg. destruct (g x); [f_equal|]; exact IH.
Qed.

Lemma world_eta (w : World) : mkWorld (self w) (store w) = w.
Proof. by destruct w. Qed.

Lemma registry_eta (r : txt.FontCollection) :
  set_skt_collection_ (skt_collection_ r) r = r.
Proof. by destruct r. Qed.

(** ** What each method computes *)

Section Calculus.
Context (P : Platform).

Lemma Create_cached (w : World) (p : addr) :
  skt_collection_ (self w) = Some p ->
  CreateSktFontCollection P w = (Some p, w).
Proof.
  intros Hp. destruct w as [r st]; simpl in Hp.
  unfold CreateSktFontCollection, bind, this, ret; simpl.
  rewrite Hp; simpl. by rewrite Hp.
Qed.

Lemma Create_build (w : World) :
  skt_collection_ (self w) = None ->
  CreateSktFontCollection P w =
    (Some (length (store w)),
     mkWorld (set_skt_collection_ (Some (length (store w))) (self w))
             (store w ++ [built P (self w)])).
Proof.
  intros Hp.
  unfold CreateSktFontCollection, bind, this, ret, sk_make_sp, assign, call.
  simpl. rewrite Hp. unfold built.
  destruct (enable_font_fallback_ (self w)); simpl;
    by rewrite !alter_snoc.
Qed.

Lemma result_Create_build (w : World) :
  skt_collection_ (self w) = None ->
  result (CreateSktFontCollection P) w = Some (length (store w)).
Proof. intros Hp. unfold result. by rewrite Create_build. Qed.

Lemma after_Create_build (w : World) :
  skt_collection_ (self w) = None ->
  after (CreateSktFontCollection P) w =
    mkWorld (set_skt_collection_ (Some (length (store w))) (self w))
            (store w ++ [built P (self w)]).
Proof. intros Hp. unfold after. by rewrite Create_build. Qed.

Lemma mutate_after (mu : Mutator) (w : World) :
  self (after (mutate P mu) w) =
    set_skt_collection_ None
      (match target mu with
       | Dynamic => set_dynamic_font_manager_
       | Asset => set_asset_font_manager_
       | Test => set_test_font_manager_
       | Default => set_default_font_manager_
       end (assigned P mu) (self w))
  /\ store (after (mutate P mu) w) = store w.
Proof. by destruct mu. Qed.

Lemma mutate_slot (mu : Mutator) (w : World) (s : Slot) :
  slot s (self (after (mutate P mu) w)) =
    if decide (s = target mu) then assigned P mu else slot s (self w).
Proof. by destruct mu, s. Qed.

Lemma mutate_resets (mu : Mutator) (w : World) :
  skt_collection_ (self (after (mutate P mu) w)) = None.
Proof. by destruct mu. Qed.

Lemma mutate_keeps_flag (mu : Mutator) (w : World) :
  enable_font_fallback_ (self (after (mutate P mu) w)) =
    enable_font_fallback_ (self w).
Proof. by destruct mu. Qed.

Lemma built_wired (r : txt.FontCollection) (s : Slot) :
  wired s (built P r) = slot s r.
Proof. unfold built. by destruct s, (enable_font_fallback_ r). Qed.

Lemma built_fallback (r : txt.FontCollection) :
  skt.fEnableFontFallback (built P r) = enable_font_fallback_ r.
Proof. unfold built. by destruct (enable_font_fallback_ r). Qed.

Lemma built_families (r : txt.FontCollection) :
  skt.fDefaultFamilyNames (built P r) = GetDefaultFontFamilies P.
Proof. unfold built. by destruct (enable_font_fallback_ r). Qed.

Lemma built_caches (r : txt.FontCollection) :
  skt.fTypefaces (built P r) = [].
Proof. unfold built. by destruct (enable_font_fallback_ r). Qed.

End Calculus.

(** ** Provider order and count *)

Lemma GetFontManagerOrder_spec (r : txt.FontCollection) :
  GetFontManagerOrder r = ComputeProviderOrder r.
Proof.
  unfold GetFontManagerOrder, ComputeProviderOrder, priority, push_back_if.
  destruct r as [d a y t e c]; simpl.
  by destruct d, a, y, t.
Qed.

Lemma elem_of_ComputeProviderOrder (r : txt.FontCollection) (m : SkFontMgr) :
  m ∈ ComputeProviderOrder r <-> exists s, slot s r = Some m.
Proof.
  unfold ComputeProviderOrder. rewrite list_elem_of_omap. split.
  - intros (s & _ & Hs). by exists s.
  - intros (s & Hs). exists s. split; [|done].
    unfold priority. destruct s; repeat constructor.
Qed.

Lemma run_mutators_slot (P : Platform) (mus : list Mutator) (w : World)
    (s : Slot) :
  slot s (self (after (run P (OMutate <$> mus)) w)) =
    last_assigned P s mus (slot s (self w)).
Proof.
  revert w. induction mus as [|mu mus IH]; intros w; [done|].
  simpl. rewrite <- mutate_slot, <- IH.
  unfold after, bind; simpl. by destruct (mutate P mu w).
Qed.

(** C1. For every registry state, [GetFontManagerOrder] returns exactly the
    non-empty slots in the priority order dynamic, asset, test, default: it
    is the priority list with the empty slots dropped, its elements are the
    handles held by some slot, and after any sequence of slot assignments,
    in whatever order they were made, it lists what each slot holds at the
    end, again in priority order. *)
Theorem GetFontManagerOrder_priority (P : Platform) (w : World)
    (mus : list Mutator) :
  GetFontManagerOrder (self w) = ComputeProviderOrder (self w)
  /\ (forall m : SkFontMgr,
        m ∈ GetFontManagerOrder (self w) <-> exists s, slot s (self w) = Some m)
  /\ GetFontManagerOrder (self (after (run P (OMutate <$> mus)) w)) =
       omap (fun s => last_assigned P s mus (slot s (self w)))
            [Dynamic; Asset; Test; Default].
Proof.
  split; [apply GetFontManagerOrder_spec|]. split.
  - intros m. rewrite GetFontManagerOrder_spec.
    apply elem_of_ComputeProviderOrder.
  - rewrite GetFontManagerOrder_spec. unfold ComputeProviderOrder, priority.
    apply omap_pointwise. intros s. apply run_mutators_slot.
Qed.

(** C4. In every registry state [GetFontManagersCount] is the length of
    [GetFontManagerOrder]'s result, which is the number of non-empty slots,
    between 0 and 4. *)
Theorem GetFontManagersCount_consistent (r : txt.FontCollection) :
  GetFontManagersCount r = length (GetFontManagerOrder r)
  /\ GetFontManagersCount r = CountProviders r
  /\ GetFontManagersCount r <= 4.
Proof.
  unfold GetFontManagersCount, CountProviders, priority.
  unfold GetFontManagerOrder, push_back_if.
  destruct r as [d a y t e c]; simpl.
  split; [done|].
  destruct d, a, y, t; simpl; split; by (reflexivity || lia).
Qed.

Example order_asset_default :
  GetFontManagerOrder (self sample_unbuilt) = [2%positive; 4%positive]
  /\ GetFontManagersCount (self sample_unbuilt) = 2.
Proof. split; reflexivity. Qed.

Example order_all_four :
  GetFontManagerOrder
    (txt.mkFontCollection (Some 4%positive) (Some 2%positive)
       (Some 1%positive) (Some 3%positive) true None) =
    [1%positive; 2%positive; 3%positive; 4%positive].
Proof. reflexivity. Qed.

Example order_none : GetFontManagerOrder new = [].
Proof. reflexivity. Qed.

(** ** The cached collection *)

Example build_sample :
  CreateSktFontCollection sample_platform sample_unbuilt =
    (Some 0,
     mkWorld (set_skt_collection_ (Some 0) (self sample_unbuilt))
       [skt.mkFontCollection (Some 4%positive) (Some 2%positive) None None
          ["Roboto"; "sans-serif"] true []]).
Proof. reflexivity. Qed.

Lemma Create_returns_cache (P : Platform) (w : World) :
  skt_collection_ (self (after (CreateSktFontCollection P) w)) =
    result (CreateSktFontCollection P) w
  /\ is_Some (result (CreateSktFontCollection P) w).
Proof.
  unfold after, result.
  destruct (skt_collection_ (self w)) as [p|] eqn:Hp.
  - rewrite (Create_cached P w p Hp); simpl. by rewrite Hp.
  - rewrite (Create_build P w Hp); simpl. by split.
Qed.

Lemma consecutive_cached (P : Platform) (w : World) (p : addr) (n : nat) :
  skt_collection_ (self w) = Some p ->
  consecutive n (CreateSktFontCollection P) w = (replicate n (Some p), w).
Proof.
  intros Hp. induction n as [|n IH]; [done|].
  simpl. unfold bind. by rewrite (Create_cached P w p Hp), IH.
Qed.

(** C2. For every registry state, the object a call of
    [CreateSktFontCollection] returns is returned again, identically, by each
    of any number of further consecutive calls, and those calls change
    nothing. *)
Theorem CreateSktFontCollection_idempotent (P : Platform) (w : World) (n : nat) :
  exists p : addr,
    result (CreateSktFontCollection P) w = Some p
    /\ consecutive n (CreateSktFontCollection P)
         (after (CreateSktFontCollection P) w) =
       (replicate n (Some p), after (CreateSktFontCollection P) w).
Proof.
  destruct (Create_returns_cache P w) as [Hc [p Hp]].
  exists p. split; [done|].
  apply consecutive_cached. by rewrite Hc.
Qed.

(** C10. [CreateSktFontCollection] leaves the four provider slots and the
    fallback flag as they were: the registry after the call is the registry
    before it with only [skt_collection_] set to the returned pointer. *)
Theorem CreateSktFontCollection_frame (P : Platform) (w : World) :
  (forall s : Slot,
     slot s (self (after (CreateSktFontCollection P) w)) = slot s (self w))
  /\ enable_font_fallback_ (self (after (CreateSktFontCollection P) w)) =
       enable_font_fallback_ (self w)
  /\ self (after (CreateSktFontCollection P) w) =
       set_skt_collection_ (result (CreateSktFontCollection P) w) (self w).
Proof.
  unfold after, result.
  destruct (skt_collection_ (self w)) as [p|] eqn:Hp.
  - rewrite (Create_cached P w p Hp); simpl.
    rewrite <- Hp. by rewrite registry_eta.
  - rewrite (Create_build P w Hp); simpl.
    split; [by intros []|done].
Qed.

(** C9. [ClearFontFamilyCache] on a registry with no collection built is a
    no-op: registry and store are returned unchanged, so no collection is
    made and the slots, the flag and the null [skt_collection_] stay. *)
Theorem ClearFontFamilyCache_absent (w : World) :
  skt_collection_ (self w) = None ->
  ClearFontFamilyCache w = (tt, w).
Proof.
  intros Hp. unfold ClearFontFamilyCache, bind, this, ret; simpl.
  by rewrite Hp.
Qed.

Lemma ClearFontFamilyCache_absent_witness :
  skt_collection_ (self sample_unbuilt) = None
  /\ ClearFontFamilyCache sample_unbuilt = (tt, sample_unbuilt).
Proof.
  split; [reflexivity|].
  apply (ClearFontFamilyCache_absent sample_unbuilt). reflexivity.
Defined.

(** C6. [ClearFontFamilyCache] on a registry holding a built collection
    keeps it: the next [CreateSktFontCollection] returns the same pointer and
    changes nothing, the registry's fields are untouched, and in the store
    only that collection changes, keeping its wiring and losing its
    per-family caches. *)
Theorem ClearFontFamilyCache_keeps_collection (P : Platform) (w : World) (p : addr)
    (c : skt.FontCollection) :
  skt_collection_ (self w) = Some p ->
  store w !! p = Some c ->
  CreateSktFontCollection P (after ClearFontFamilyCache w) =
    (Some p, after ClearFontFamilyCache w)
  /\ self (after ClearFontFamilyCache w) = self w
  /\ store (after ClearFontFamilyCache w) !! p = Some (skt.clearCaches c)
  /\ skt.wiring (skt.clearCaches c) = skt.wiring c
  /\ skt.fTypefaces (skt.clearCaches c) = []
  /\ (forall q : addr,
        q <> p -> store (after ClearFontFamilyCache w) !! q = store w !! q)
  /\ length (store (after ClearFontFamilyCache w)) = length (store w).
Proof.
  intros Hp Hc.
  assert (after ClearFontFamilyCache w =
          mkWorld (self w) (alter skt.clearCaches p (store w))) as ->.
  { unfold after, ClearFontFamilyCache, bind, this, call; simpl.
    by rewrite Hp. }
  simpl. split; [by apply Create_cached|]. split; [done|].
  split; [by apply lookup_alter_at|]. split; [done|]. split; [done|].
  split; [|apply length_alter].
  intros q Hq. by apply list_lookup_alter_ne.
Qed.

Lemma ClearFontFamilyCache_keeps_collection_witness :
  skt_collection_ (self sample_built) = Some 0
  /\ CreateSktFontCollection sample_platform
      (after ClearFontFamilyCache sample_built) =
    (Some 0, after ClearFontFamilyCache sample_built)
  /\ skt.fTypefaces <$> store sample_built !! 0 = Some [("Roboto", [7%positive])]
  /\ skt.fTypefaces <$> store (after ClearFontFamilyCache sample_built) !! 0 =
       Some [].
Proof.
  destruct (ClearFontFamilyCache_keeps_collection sample_platform
              sample_built 0
              (skt.mkFontCollection (Some 4%positive) (Some 2%positive) None
                 None ["Roboto"; "sans-serif"] true [("Roboto", [7%positive])])
              eq_refl eq_refl) as (Hcreate & _ & Hstore & _).
  split; [reflexivity|]. split; [exact Hcreate|]. split; [reflexivity|].
  by rewrite Hstore.
Defined.

(** ** Disabling font fallback *)

Lemma Disable_cached (w : World) (p : addr) :
  skt_collection_ (self w) = Some p ->
  after DisableFontFallback w =
    mkWorld (set_enable_font_fallback_ false (self w))
            (alter skt.disableFontFallback p (store w)).
Proof.
  intros Hp. unfold after, DisableFontFallback, bind, this, assign, call.
  simpl. by rewrite Hp.
Qed.

Lemma Disable_absent (w : World) :
  skt_collection_ (self w) = None ->
  after DisableFontFallback w =
    mkWorld (set_enable_font_fallback_ false (self w)) (store w).
Proof.
  intros Hp. unfold after, DisableFontFallback, bind, this, assign, ret.
  simpl. by rewrite Hp.
Qed.

Lemma Disable_flag (w : World) :
  enable_font_fallback_ (self (after DisableFontFallback w)) = false.
Proof.
  destruct (skt_collection_ (self w)) as [p|] eqn:Hp.
  - by rewrite (Disable_cached w p Hp).
  - by rewrite (Disable_absent w Hp).
Qed.

(** C8. [DisableFontFallback] clears the registry's flag.  With a collection
    built, it changes no other field of the registry, calls
    [disableFontFallback] on that collection and on no other, and the next
    [CreateSktFontCollection] returns the same pointer without building.
    With none built, only the flag changes (the store is untouched), and the
    collection that the next [CreateSktFontCollection] builds has fallback
    disabled. *)
Theorem DisableFontFallback_in_place (P : Platform) (w : World) :
  enable_font_fallback_ (self (after DisableFontFallback w)) = false
  /\ self (after DisableFontFallback w) =
       set_enable_font_fallback_ false (self w)
  /\ (forall (p : addr) (c : skt.FontCollection),
        skt_collection_ (self w) = Some p ->
        store w !! p = Some c ->
        store (after DisableFontFallback w) !! p =
          Some (skt.disableFontFallback c)
        /\ (forall q : addr,
              q <> p ->
              store (after DisableFontFallback w) !! q = store w !! q)
        /\ CreateSktFontCollection P (after DisableFontFallback w) =
             (Some p, after DisableFontFallback w))
  /\ (skt_collection_ (self w) = None ->
      store (after DisableFontFallback w) = store w
      /\ exists c : skt.FontCollection,
           result (CreateSktFontCollection P) (after DisableFontFallback w) =
             Some (length (store w))
           /\ store (after (CreateSktFontCollection P)
                       (after DisableFontFallback w)) !! length (store w) =
                Some c
           /\ skt.fEnableFontFallback c = false).
Proof.
  split; [apply Disable_flag|].
  split.
  { destruct (skt_collection_ (self w)) as [p|] eqn:Hp.
    - by rewrite (Disable_cached w p Hp).
    - by rewrite (Disable_absent w Hp). }
  split.
  - intros p c Hp Hc. rewrite (Disable_cached w p Hp); simpl.
    split; [by apply lookup_alter_at|].
    split; [intros q Hq; by apply list_lookup_alter_ne|].
    by apply Create_cached.
  - intros Hp. rewrite (Disable_absent w Hp); simpl.
    split; [done|].
    exists (built P (set_enable_font_fallback_ false (self w))).
    unfold result, after. rewrite Create_build by done. simpl.
    split; [done|]. split; [apply lookup_snoc_new|].
    exact (built_fallback P (set_enable_font_fallback_ false (self w))).
Qed.

Lemma DisableFontFallback_in_place_witness :
  (skt_collection_ (self sample_built) = Some 0
   /\ CreateSktFontCollection sample_platform
        (after DisableFontFallback sample_built) =
      (Some 0, after DisableFontFallback sample_built))
  /\ (skt_collection_ (self sample_unbuilt) = None
      /\ store (after DisableFontFallback sample_unbuilt) =
         store sample_unbuilt).
Proof.
  destruct (DisableFontFallback_in_place sample_platform sample_built)
    as (_ & _ & Hbuilt & _).
  destruct (DisableFontFallback_in_place sample_platform sample_unbuilt)
    as (_ & _ & _ & Hunbuilt).
  split; split; [reflexivity| |reflexivity|].
  - by apply (Hbuilt 0 (skt.mkFontCollection (Some 4%positive)
                          (Some 2%positive) None None ["Roboto"; "sans-serif"]
                          true [("Roboto", [7%positive])])).
  - by apply Hunbuilt.
Defined.

(** C7, as amended.  The cached collection is discarded whenever a provider
    slot is reassigned, so that the next [CreateSktFontCollection] returns
    another object; [DisableFontFallback] on a registry holding a built
    collection does not discard it: [skt_collection_] still points to it and
    the next [CreateSktFontCollection] returns that same object, now with
    fallback disabled. *)
Theorem DisableFontFallback_keeps_collection (P : Platform) (w : World)
    (p : addr) (c : skt.FontCollection) :
  skt_collection_ (self w) = Some p ->
  store w !! p = Some c ->
  (skt_collection_ (self (after DisableFontFallback w)) = Some p
   /\ result (CreateSktFontCollection P) (after DisableFontFallback w) = Some p
   /\ skt.fEnableFontFallback <$> store (after DisableFontFallback w) !! p =
        Some false)
  /\ (forall mu : Mutator,
        skt_collection_ (self (after (mutate P mu) w)) = None
        /\ result (CreateSktFontCollection P) (after (mutate P mu) w) <> Some p).
Proof.
  intros Hp Hc. split.
  - rewrite (Disable_cached w p Hp); simpl.
    split; [done|]. split.
    + unfold result. by rewrite (Create_cached P _ p).
    + by rewrite (lookup_alter_at _ _ _ c).
  - intros mu. split; [apply mutate_resets|].
    unfold result. rewrite Create_build by apply mutate_resets. simpl.
    destruct (mutate_after P mu w) as [_ ->].
    apply lookup_lt_Some in Hc. intros [= Heq]. lia.
Qed.

Lemma DisableFontFallback_keeps_collection_witness :
  skt_collection_ (self sample_built) = Some 0
  /\ skt_collection_ (self (after DisableFontFallback sample_built)) = Some 0
  /\ result (CreateSktFontCollection sample_platform)
       (after (mutate sample_platform (MSetTestFontManager None))
              sample_built) <> Some 0.
Proof.
  destruct (DisableFontFallback_keeps_collection sample_platform sample_built
              0 (skt.mkFontCollection (Some 4%positive) (Some 2%positive) None
                   None ["Roboto"; "sans-serif"] true
                   [("Roboto", [7%positive])]) eq_refl eq_refl)
    as [(Hkeep & _) Hmut].
  split; [reflexivity|]. split; [exact Hkeep|].
  apply (Hmut (MSetTestFontManager None)).
Defined.

(** C7 as stated fails: on a registry holding the built collection 0,
    [DisableFontFallback] leaves [skt_collection_] pointing to it, and the
    next [CreateSktFontCollection] returns 0 again and allocates nothing. *)
Lemma DisableFontFallback_invalidates_counterexample :
  result (CreateSktFontCollection sample_platform) sample_built = Some 0
  /\ skt_collection_ (self (after DisableFontFallback sample_built)) <> None
  /\ ~ (result (CreateSktFontCollection sample_platform)
          (after DisableFontFallback sample_built) <> Some 0)
  /\ length (store (after (CreateSktFontCollection sample_platform)
                      (after DisableFontFallback sample_built))) = 1.
Proof.
  split; [reflexivity|]. split; [discriminate|].
  split; [|reflexivity]. intros Hne. by apply Hne.
Qed.

(** ** Invalidation by the slot mutators *)

(** C3. On a registry holding a built collection, after any of the five slot
    mutators the next [CreateSktFontCollection] returns a pointer to a newly
    made collection, different from the one held before, which is itself
    left as it was; the new collection is wired to the updated slots (the
    mutator's handle in its target slot, the former handles elsewhere), to
    the platform's default families and to the registry's fallback flag.
    After [DisableFontFallback] on a registry with no collection yet, the next
    [CreateSktFontCollection] likewise returns a newly made collection, wired
    to the slots and with fallback disabled. *)
Theorem mutator_invalidates (P : Platform) (w : World) :
  (forall (mu : Mutator) (p : addr) (c : skt.FontCollection),
     skt_collection_ (self w) = Some p ->
     store w !! p = Some c ->
     exists (p' : addr) (c' : skt.FontCollection),
       result (CreateSktFontCollection P) (after (mutate P mu) w) = Some p'
       /\ p' <> p
       /\ store w !! p' = None
       /\ store (after (CreateSktFontCollection P) (after (mutate P mu) w))
            !! p' = Some c'
       /\ store (after (CreateSktFontCollection P) (after (mutate P mu) w))
            !! p = Some c
       /\ (forall s : Slot,
             wired s c' =
               if decide (s = target mu) then assigned P mu
               else slot s (self w))
       /\ skt.fDefaultFamilyNames c' = GetDefaultFontFamilies P
       /\ skt.fEnableFontFallback c' = enable_font_fallback_ (self w)
       /\ skt.fTypefaces c' = [])
  /\ (skt_collection_ (self w) = None ->
      exists (p' : addr) (c' : skt.FontCollection),
        result (CreateSktFontCollection P) (after DisableFontFallback w) =
          Some p'
        /\ store w !! p' = None
        /\ store (after (CreateSktFontCollection P)
                    (after DisableFontFallback w)) !! p' = Some c'
        /\ (forall s : Slot, wired s c' = slot s (self w))
        /\ skt.fEnableFontFallback c' = false).
Proof.
  split.
  - intros mu p c Hp Hc.
    pose proof (mutate_resets P mu w) as Hreset.
    destruct (mutate_after P mu w) as [_ Hstore].
    exists (length (store w)), (built P (self (after (mutate P mu) w))).
    rewrite (result_Create_build P _ Hreset).
    rewrite (after_Create_build P _ Hreset), Hstore; simpl.
    pose proof (lookup_lt_Some _ _ _ Hc) as Hlt.
    split; [done|]. split; [lia|].
    split; [by apply lookup_ge_None_2|].
    split; [apply lookup_snoc_new|].
    split; [by rewrite lookup_app_l|].
    split; [intros s; by rewrite built_wired, mutate_slot|].
    split; [apply built_families|].
    split; [by rewrite built_fallback, mutate_keeps_flag|].
    apply built_caches.
  - intros Hp. rewrite (Disable_absent w Hp).
    exists (length (store w)),
           (built P (set_enable_font_fallback_ false (self w))).
    rewrite result_Create_build, after_Create_build by done. simpl.
    split; [done|]. split; [by apply lookup_ge_None_2|].
    split; [apply lookup_snoc_new|].
    split; [intros s; by rewrite built_wired; destruct s|].
    exact (built_fallback P (set_enable_font_fallback_ false (self w))).
Qed.

Lemma mutator_invalidates_witness :
  (exists (p' : addr) (c' : skt.FontCollection),
     skt_collection_ (self sample_built) = Some 0
     /\ result (CreateSktFontCollection sample_platform)
          (after (mutate sample_platform
                    (MSetAssetFontManager (Some 5%positive)))
                 sample_built) = Some p'
     /\ p' <> 0
     /\ wired Asset c' = Some 5%positive
     /\ wired Default c' = Some 4%positive)
  /\ (exists (p' : addr) (c' : skt.FontCollection),
        skt_collection_ (self sample_unbuilt) = None
        /\ result (CreateSktFontCollection sample_platform)
             (after DisableFontFallback sample_unbuilt) = Some p'
        /\ skt.fEnableFontFallback c' = false).
Proof.
  destruct (mutator_invalidates sample_platform sample_built) as [Hmut _].
  destruct (mutator_invalidates sample_platform sample_unbuilt) as [_ Hdis].
  split.
  - destruct (Hmut (MSetAssetFontManager (Some 5%positive)) 0
                (skt.mkFontCollection (Some 4%positive) (Some 2%positive) None
                   None ["Roboto"; "sans-serif"] true
                   [("Roboto", [7%positive])]) eq_refl eq_refl)
      as (p' & c' & Hres & Hne & _ & _ & _ & Hwired & _).
    exists p', c'. split; [reflexivity|]. split; [exact Hres|].
    split; [exact Hne|]. split; [exact (Hwired Asset)|exact (Hwired Default)].
  - destruct (Hdis eq_refl) as (p' & c' & Hres & _ & _ & _ & Hoff).
    exists p', c'. split; [reflexivity|]. split; [exact Hres|exact Hoff].
Defined.

(** ** Runs of the public interface *)

Lemma after_bind {A B : Type} (m : M A) (k : M B) (w : World) :
  after (m ;; k) w = after k (after m w).
Proof. unfold after, bind. by destruct (m w). Qed.

Lemma after_run_app (P : Platform) (ops1 ops2 : list Op) (w : World) :
  after (run P (ops1 ++ ops2)) w = after (run P ops2) (after (run P ops1) w).
Proof.
  revert w. induction ops1 as [|o ops1 IH]; intros w; [done|].
  simpl. by rewrite !after_bind, IH.
Qed.

Lemma Clear_cached (w : World) (p : addr) :
  skt_collection_ (self w) = Some p ->
  after ClearFontFamilyCache w =
    mkWorld (self w) (alter skt.clearCaches p (store w)).
Proof.
  intros Hp. unfold after, ClearFontFamilyCache, bind, this, call; simpl.
  by rewrite Hp.
Qed.

Lemma Clear_absent (w : World) :
  skt_collection_ (self w) = None -> after ClearFontFamilyCache w = w.
Proof.
  intros Hp. unfold after, ClearFontFamilyCache, bind, this, ret; simpl.
  by rewrite Hp.
Qed.

Lemma step_Create (P : Platform) (w : World) :
  after (step P OCreateSktFontCollection) w =
    after (CreateSktFontCollection P) w.
Proof. simpl. by rewrite after_bind. Qed.

(** *** The cached pointer stays valid *)

Lemma step_cache_valid (P : Platform) (o : Op) (w : World) :
  cache_valid w -> cache_valid (after (step P o) w).
Proof.
  intros Hw. destruct o as [mu| | |].
  - intros p Hp. simpl in Hp. by rewrite mutate_resets in Hp.
  - simpl. destruct (skt_collection_ (self w)) as [p|] eqn:Hp.
    + rewrite (Disable_cached w p Hp). intros q Hq; simpl in *.
      rewrite length_alter. apply Hw. by rewrite <- Hq.
    + rewrite (Disable_absent w Hp). intros q Hq; simpl in *. congruence.
  - simpl. destruct (skt_collection_ (self w)) as [p|] eqn:Hp.
    + rewrite (Clear_cached w p Hp). intros q Hq; simpl in *.
      rewrite length_alter. by apply Hw.
    + by rewrite (Clear_absent w Hp).
  - rewrite step_Create.
    destruct (skt_collection_ (self w)) as [p|] eqn:Hp.
    + unfold after. by rewrite (Create_cached P w p Hp).
    + rewrite (after_Create_build P w Hp). intros q [= <-]; simpl.
      rewrite length_app; simpl. lia.
Qed.

Lemma run_cache_valid (P : Platform) (ops : list Op) (w : World) :
  cache_valid w -> cache_valid (after (run P ops) w).
Proof.
  revert w. induction ops as [|o ops IH]; intros w Hw; [done|].
  simpl. rewrite after_bind. by apply IH, step_cache_valid.
Qed.

Lemma new_cache_valid (st : list skt.FontCollection) :
  cache_valid (mkWorld new st).
Proof. intros p Hp. discriminate Hp. Qed.

(** *** Fallback stays off *)

Lemma alter_fallback_off (f : skt.FontCollection -> skt.FontCollection)
    (k p : addr) (r : txt.FontCollection) (st : list skt.FontCollection) :
  (forall c, skt.fEnableFontFallback c = false ->
             skt.fEnableFontFallback (f c) = false) ->
  fallback_off k (mkWorld r st) ->
  fallback_off k (mkWorld r (alter f p st)).
Proof.
  intros Hf (Hflag & Hcache & Hlate). split; [done|]. simpl in *. split.
  - intros q Hq. specialize (Hcache q Hq).
    rewrite list_lookup_alter. case_decide as Hpq; [subst p|done].
    destruct (st !! q) as [c|]; [|done]. simpl in *.
    injection Hcache as Hc. f_equal. by apply Hf.
  - intros q c Hk. rewrite list_lookup_alter. case_decide as Hpq.
    + subst p. destruct (st !! q) as [c0|] eqn:Hc0; [|done]. simpl.
      intros [= <-]. apply Hf. by apply (Hlate q).
    + by apply Hlate.
Qed.

Lemma step_fallback_off (P : Platform) (k : addr) (o : Op) (w : World) :
  fallback_off k w -> fallback_off k (after (step P o) w).
Proof.
  intros Hw. destruct o as [mu| | |].
  - destruct Hw as (Hflag & _ & Hlate). simpl.
    destruct (mutate_after P mu w) as [_ Hstore].
    split; [by rewrite mutate_keeps_flag|]. split.
    + intros p Hp. by rewrite mutate_resets in Hp.
    + intros q c. rewrite Hstore. apply Hlate.
  - simpl. destruct (skt_collection_ (self w)) as [p|] eqn:Hp.
    + rewrite (Disable_cached w p Hp).
      destruct Hw as (Hflag & Hcache & Hlate).
      destruct (self w) as [d a y t e c]; simpl in *; subst e.
      by apply alter_fallback_off.
    + rewrite (Disable_absent w Hp).
      destruct Hw as (Hflag & Hcache & Hlate).
      destruct w as [[d a y t e c] st]; simpl in *; by subst e.
  - simpl. destruct (skt_collection_ (self w)) as [p|] eqn:Hp.
    + rewrite (Clear_cached w p Hp).
      apply alter_fallback_off; [done|]. by rewrite world_eta.
    + by rewrite (Clear_absent w Hp).
  - rewrite step_Create.
    destruct (skt_collection_ (self w)) as [p|] eqn:Hp.
    + unfold after. by rewrite (Create_cached P w p Hp).
    + rewrite (after_Create_build P w Hp).
      destruct Hw as (Hflag & _ & Hlate).
      assert (skt.fEnableFontFallback (built P (self w)) = false) as Hb
        by by rewrite built_fallback.
      split; [done|]. simpl. split.
      * intros q [= <-]. by rewrite lookup_snoc_new; simpl; rewrite Hb.
      * intros q c Hk Hq. apply lookup_snoc_Some in Hq as [[_ Hq]|[_ <-]];
          [by apply (Hlate q)|done].
Qed.

Lemma run_fallback_off (P : Platform) (k : addr) (ops : list Op) (w : World) :
  fallback_off k w -> fallback_off k (after (run P ops) w).
Proof.
  revert w. induction ops as [|o ops IH]; intros w Hw; [done|].
  simpl. rewrite after_bind. by apply IH, step_fallback_off.
Qed.

Lemma Disable_fallback_off (w : World) :
  cache_valid w ->
  fallback_off (length (store (after DisableFontFallback w)))
    (after DisableFontFallback w).
Proof.
  intros Hw. destruct (skt_collection_ (self w)) as [p|] eqn:Hp.
  - rewrite (Disable_cached w p Hp); simpl.
    split; [done|]. simpl. split.
    + intros q Hq. rewrite Hp in Hq. injection Hq as <-.
      destruct (lookup_lt_is_Some_2 (store w) p (Hw p Hp)) as [c Hc].
      by rewrite (lookup_alter_at _ _ _ c).
    + intros q c Hk Hq. apply lookup_lt_Some in Hq. lia.
  - rewrite (Disable_absent w Hp); simpl.
    split; [done|]. simpl. split.
    + intros q Hq. congruence.
    + intros q c Hk Hq. apply lookup_lt_Some in Hq. lia.
Qed.

(** C5. Take a registry as constructed, run any operations, call
    [DisableFontFallback], then run any further operations.  In the world
    reached the flag is still cleared, the collection that
    [CreateSktFontCollection] returns there (cached or newly built) has
    fallback disabled, and so has every collection made since the call of
    [DisableFontFallback]. *)
Theorem DisableFontFallback_one_way (P : Platform)
    (st0 : list skt.FontCollection) (before later : list Op) :
  let wd :=
    after (run P (before ++ [ODisableFontFallback])) (mkWorld new st0) in
  let w := after (run P later) wd in
  enable_font_fallback_ (self w) = false
  /\ (exists p : addr,
        result (CreateSktFontCollection P) w = Some p
        /\ skt.fEnableFontFallback
             <$> store (after (CreateSktFontCollection P) w) !! p = Some false)
  /\ (forall (q : addr) (c : skt.FontCollection),
        length (store wd) <= q ->
        store w !! q = Some c ->
        skt.fEnableFontFallback c = false).
Proof.
  intros wd w.
  assert (fallback_off (length (store wd)) wd) as Hd.
  { subst wd. rewrite after_run_app. simpl. rewrite after_bind.
    apply Disable_fallback_off, run_cache_valid, new_cache_valid. }
  assert (fallback_off (length (store wd)) w) as Hw
    by apply run_fallback_off, Hd.
  pose proof (step_fallback_off P _ OCreateSktFontCollection w Hw) as Hc.
  rewrite step_Create in Hc.
  destruct Hw as (Hflag & _ & Hlate), Hc as (_ & Hcache & _).
  split; [done|]. split; [|done].
  destruct (Create_returns_cache P w) as [Heq [p Hp]].
  exists p. split; [done|]. apply Hcache. by rewrite Heq.
Qed.

Lemma DisableFontFallback_one_way_witness :
  enable_font_fallback_
    (self (after (run sample_platform
                    [OMutate (MSetTestFontManager (Some 3%positive));
                     OCreateSktFontCollection; OClearFontFamilyCache])
             (after (run sample_platform
                       ([OMutate (MSetAssetFontManager (Some 2%positive));
                         OCreateSktFontCollection] ++ [ODisableFontFallback]))
                    (mkWorld new [])))) = false.
Proof.
  exact (proj1 (DisableFontFallback_one_way sample_platform []
                  [OMutate (MSetAssetFontManager (Some 2%positive));
                   OCreateSktFontCollection]
                  [OMutate (MSetTestFontManager (Some 3%positive));
                   OCreateSktFontCollection; OClearFontFamilyCache])).
Defined.

Example rebuilt_after_disable :
  store (after (run sample_platform
                  [OMutate (MSetAssetFontManager (Some 2%positive));
                   OCreateSktFontCollection; ODisableFontFallback;
                   OMutate (MSetTestFontManager (Some 3%positive));
                   OCreateSktFontCollection])
           (mkWorld new [])) =
    [skt.mkFontCollection None (Some 2%positive) None None
       ["Roboto"; "sans-serif"] false [];
     skt.mkFontCollection None (Some 2%positive) None (Some 3%positive)
       ["Roboto"; "sans-serif"] false []].
Proof. reflexivity. Qed.

(** ** One step of the interface, field by field *)

Lemma step_store (P : Platform) (o : Op) (w : World) :
  store (after (step P o) w) =
    match o, skt_collection_ (self w) with
    | OMutate _, _ => store w
    | ODisableFontFallback, Some p => alter skt.disableFontFallback p (store w)
    | OClearFontFamilyCache, Some p => alter skt.clearCaches p (store w)
    | OCreateSktFontCollection, None => store w ++ [built P (self w)]
    | _, _ => store w
    end.
Proof.
  destruct o as [mu| | |].
  - simpl. destruct (mutate_after P mu w) as [_ ->].
    by destruct (skt_collection_ (self w)).
  - simpl. destruct (skt_collection_ (self w)) as [p|] eqn:Hp.
    + by rewrite (Disable_cached w p Hp).
    + by rewrite (Disable_absent w Hp).
  - simpl. destruct (skt_collection_ (self w)) as [p|] eqn:Hp.
    + by rewrite (Clear_cached w p Hp).
    + by rewrite (Clear_absent w Hp).
  - rewrite step_Create. destruct (skt_collection_ (self w)) as [p|] eqn:Hp.
    + unfold after. by rewrite (Create_cached P w p Hp).
    + by rewrite (after_Create_build P w Hp).
Qed.

Lemma step_cache (P : Platform) (o : Op) (w : World) :
  skt_collection_ (self (after (step P o) w)) =
    match o, skt_collection_ (self w) with
    | OMutate _, _ => None
    | OCreateSktFontCollection, None => Some (length (store w))
    | _, c => c
    end.
Proof.
  destruct o as [mu| | |].
  - apply mutate_resets.
  - simpl. destruct (skt_collection_ (self w)) as [p|] eqn:Hp.
    + by rewrite (Disable_cached w p Hp).
    + by rewrite (Disable_absent w Hp).
  - simpl. destruct (skt_collection_ (self w)) as [p|] eqn:Hp.
    + by rewrite (Clear_cached w p Hp).
    + by rewrite (Clear_absent w Hp).
  - rewrite step_Create. destruct (skt_collection_ (self w)) as [p|] eqn:Hp.
    + unfold after. by rewrite (Create_cached P w p Hp).
    + by rewrite (after_Create_build P w Hp).
Qed.

Lemma step_slot (P : Platform) (o : Op) (w : World) (s : Slot) :
  slot s (self (after (step P o) w)) =
    match o with
    | OMutate mu =>
        if decide (s = target mu) then assigned P mu else slot s (self w)
    | _ => slot s (self w)
    end.
Proof.
  destruct o as [mu| | |].
  - apply mutate_slot.
  - simpl. destruct (skt_collection_ (self w)) as [p|] eqn:Hp.
    + rewrite (Disable_cached w p Hp). by destruct s.
    + rewrite (Disable_absent w Hp). by destruct s.
  - simpl. destruct (skt_collection_ (self w)) as [p|] eqn:Hp.
    + by rewrite (Clear_cached w p Hp).
    + by rewrite (Clear_absent w Hp).
  - rewrite step_Create. destruct (skt_collection_ (self w)) as [p|] eqn:Hp.
    + unfold after. by rewrite (Create_cached P w p Hp).
    + rewrite (after_Create_build P w Hp). by destruct s.
Qed.

Lemma step_flag (P : Platform) (o : Op) (w : World) :
  enable_font_fallback_ (self (after (step P o) w)) =
    match o with
    | ODisableFontFallback => false
    | _ => enable_font_fallback_ (self w)
    end.
Proof.
  destruct o as [mu| | |].
  - apply mutate_keeps_flag.
  - apply Disable_flag.
  - simpl. destruct (skt_collection_ (self w)) as [p|] eqn:Hp.
    + by rewrite (Clear_cached w p Hp).
    + by rewrite (Clear_absent w Hp).
  - rewrite step_Create. destruct (skt_collection_ (self w)) as [p|] eqn:Hp.
    + unfold after. by rewrite (Create_cached P w p Hp).
    + by rewrite (after_Create_build P w Hp).
Qed.

Lemma after_run_cons (P : Platform) (o : Op) (ops : list Op) (w : World) :
  after (run P (o :: ops)) w = after (run P ops) (after (step P o) w).
Proof. simpl. by rewrite after_bind. Qed.

(** ** The cache is never stale *)

Lemma step_coherent (P : Platform) (o : Op) (w : World) :
  coherent P w -> coherent P (after (step P o) w).
Proof.
  intros Hw p Hp. rewrite step_cache in Hp.
  destruct o as [mu| | |].
  - discriminate Hp.
  - destruct (Hw p Hp) as (c & Hc & Hwired & Hfam & Hfb).
    exists (skt.disableFontFallback c). rewrite step_store, Hp.
    split; [by apply lookup_alter_at|].
    split; [|by rewrite step_flag].
    intros s. rewrite step_slot, <- Hwired. by destruct s.
  - destruct (Hw p Hp) as (c & Hc & Hwired & Hfam & Hfb).
    exists (skt.clearCaches c). rewrite step_store, Hp.
    split; [by apply lookup_alter_at|].
    split; [|by rewrite step_flag].
    intros s. rewrite step_slot, <- Hwired. by destruct s.
  - destruct (skt_collection_ (self w)) as [q|] eqn:Hq.
    + injection Hp as <-.
      destruct (Hw q Hq) as (c & Hc & Hwired & Hfam & Hfb).
      exists c. rewrite step_store, Hq, step_flag.
      split; [done|]. split; [|done].
      intros s. by rewrite step_slot.
    + injection Hp as <-. exists (built P (self w)).
      rewrite step_store, Hq, step_flag.
      split; [apply lookup_snoc_new|].
      split; [|split; [apply built_families|apply built_fallback]].
      intros s. by rewrite step_slot, built_wired.
Qed.

Lemma run_coherent (P : Platform) (ops : list Op) (w : World) :
  coherent P w -> coherent P (after (run P ops) w).
Proof.
  revert w. induction ops as [|o ops IH]; intros w Hw; [done|].
  rewrite after_run_cons. by apply IH, step_coherent.
Qed.

(** X1. Whatever operations a constructed registry has gone through, the
    collection that [CreateSktFontCollection] then returns exists in the
    store and is wired to the registry's present slots, to the platform's
    default families and to the present value of the fallback flag: the
    cached collection is never stale. *)
Theorem cached_collection_current (P : Platform)
    (st0 : list skt.FontCollection) (ops : list Op) :
  exists (p : addr) (c : skt.FontCollection),
    result (CreateSktFontCollection P)
      (after (run P ops) (mkWorld new st0)) = Some p
    /\ store (after (CreateSktFontCollection P)
                (after (run P ops) (mkWorld new st0))) !! p = Some c
    /\ (forall s : Slot,
          wired s c = slot s (self (after (run P ops) (mkWorld new st0))))
    /\ skt.fDefaultFamilyNames c = GetDefaultFontFamilies P
    /\ skt.fEnableFontFallback c =
         enable_font_fallback_ (self (after (run P ops) (mkWorld new st0))).
Proof.
  set (w := after (run P ops) (mkWorld new st0)).
  assert (coherent P w) as Hw.
  { apply run_coherent. intros p Hp. discriminate Hp. }
  apply (step_coherent P OCreateSktFontCollection) in Hw.
  destruct (Create_returns_cache P w) as [Hcache [p Hp]].
  rewrite <- step_Create in Hcache.
  destruct (Hw p) as (c & Hc & Hwired & Hfam & Hfb); [congruence|].
  exists p, c. rewrite step_Create in Hc.
  split; [done|]. split; [done|].
  split; [|split; [done|by rewrite Hfb, step_flag]].
  intros s. by rewrite Hwired, step_slot.
Qed.

(** ** How many collections are made *)

Lemma mutators_cons (o : Op) (ops : list Op) :
  mutators (o :: ops) = (if is_mutator o then 1 else 0) + mutators ops.
Proof. by destruct o. Qed.

Lemma creates_cons (o : Op) (ops : list Op) :
  creates (o :: ops) = (if is_create o then 1 else 0) + creates ops.
Proof. by destruct o. Qed.

Lemma step_allocation (P : Platform) (o : Op) (w : World) :
  length (store w) <= length (store (after (step P o) w))
  /\ length (store (after (step P o) w)) <=
       length (store w) + (if is_create o then 1 else 0)
  /\ demand (after (step P o) w) <=
       demand w + (if is_mutator o then 1 else 0).
Proof.
  unfold demand. rewrite step_cache, step_store.
  destruct o as [mu| | |], (skt_collection_ (self w)) as [p|]; simpl;
    rewrite ?length_alter, ?length_app; simpl; lia.
Qed.

(** X2. Over any run of operations the store of collections only grows, by
    at most one collection per call of [CreateSktFontCollection], and by at
    most one per slot mutator plus one when the run starts with nothing
    cached: however often [CreateSktFontCollection] is called, it builds only
    after an invalidation. *)
Theorem allocation_bound (P : Platform) (ops : list Op) (w : World) :
  length (store w) <= length (store (after (run P ops) w))
  /\ length (store (after (run P ops) w)) <= length (store w) + creates ops
  /\ length (store (after (run P ops) w)) <=
       length (store w)
       + match skt_collection_ (self w) with Some _ => 0 | None => 1 end
       + mutators ops.
Proof.
  assert (forall w,
            length (store w) <= length (store (after (run P ops) w))
            /\ length (store (after (run P ops) w)) <=
                 length (store w) + creates ops
            /\ demand (after (run P ops) w) <= demand w + mutators ops) as H.
  { induction ops as [|o ops IH]; intros w0.
    - unfold creates, mutators; simpl.
      change (after (ret tt) w0) with w0. lia.
    - rewrite after_run_cons, mutators_cons, creates_cons.
      destruct (IH (after (step P o) w0)) as (H1 & H2 & H3).
      destruct (step_allocation P o w0) as (S1 & S2 & S3). lia. }
  destruct (H w) as (H1 & H2 & H3).
  split; [done|]. split; [done|].
  unfold demand in H3.
  destruct (skt_collection_ (self (after (run P ops) w))); lia.
Qed.

(** ** Released collections *)

Lemma step_frozen (P : Platform) (o : Op) (w : World) (q : addr)
    (c : skt.FontCollection) :
  store w !! q = Some c ->
  skt_collection_ (self w) <> Some q ->
  store (after (step P o) w) !! q = Some c
  /\ skt_collection_ (self (after (step P o) w)) <> Some q.
Proof.
  intros Hc Hq. rewrite step_cache, step_store.
  pose proof (lookup_lt_Some _ _ _ Hc) as Hlt.
  destruct o as [mu| | |], (skt_collection_ (self w)) as [p|]; simpl;
    try done.
  - split; [|done]. rewrite list_lookup_alter_ne; [done|congruence].
  - split; [|done]. rewrite list_lookup_alter_ne; [done|congruence].
  - split; [by rewrite lookup_app_l|]. intros [= Heq]. lia.
Qed.

Lemma run_frozen (P : Platform) (ops : list Op) (w : World) (q : addr)
    (c : skt.FontCollection) :
  store w !! q = Some c ->
  skt_collection_ (self w) <> Some q ->
  store (after (run P ops) w) !! q = Some c
  /\ skt_collection_ (self (after (run P ops) w)) <> Some q.
Proof.
  revert w. induction ops as [|o ops IH]; intros w Hc Hq; [done|].
  rewrite after_run_cons.
  destruct (step_frozen P o w q c Hc Hq) as [Hc' Hq']. by apply IH.
Qed.

Lemma destroy_store (w : World) :
  store (after destroy w) =
    match skt_collection_ (self w) with
    | Some p => alter skt.clearCaches p (store w)
    | None => store w
    end.
Proof.
  unfold after, destroy, bind, this, call, ret; simpl.
  by destruct (skt_collection_ (self w)).
Qed.

(** X3. A collection that the registry does not hold (one it released by a
    slot mutator, or one of another owner) is never modified again: after
    any run of operations followed by the destructor it is in the store as
    it was.  In particular a later [DisableFontFallback] or
    [ClearFontFamilyCache], and the destructor's cache clearing, do not
    reach it. *)
Theorem released_collection_frozen (P : Platform) (ops : list Op) (w : World)
    (q : addr) (c : skt.FontCollection) :
  store w !! q = Some c ->
  skt_collection_ (self w) <> Some q ->
  store (after (run P ops) w) !! q = Some c
  /\ store (after (run P ops ;; destroy) w) !! q = Some c.
Proof.
  intros Hc Hq. destruct (run_frozen P ops w q c Hc Hq) as [Hc' Hq'].
  split; [done|]. rewrite after_bind, destroy_store.
  destruct (skt_collection_ (self (after (run P ops) w))) as [p|]; [|done].
  rewrite list_lookup_alter_ne; [done|congruence].
Qed.

Lemma released_collection_frozen_witness :
  store (after (run sample_platform
                  [ODisableFontFallback; OCreateSktFontCollection;
                   OClearFontFamilyCache] ;; destroy)
           (after (mutate sample_platform (MSetTestFontManager None))
                  sample_built)) !! 0 =
    Some (skt.mkFontCollection (Some 4%positive) (Some 2%positive) None None
            ["Roboto"; "sans-serif"] true [("Roboto", [7%positive])]).
Proof.
  apply (released_collection_frozen sample_platform
           [ODisableFontFallback; OCreateSktFontCollection;
            OClearFontFamilyCache]
           (after (mutate sample_platform (MSetTestFontManager None))
                  sample_built) 0).
  - reflexivity.
  - discriminate.
Defined.

(** ** Composing the slot mutators *)

(** X4. Two slot mutators in a row: when they assign the same slot the
    second overwrites the first (the pair acts as the second alone); when
    they assign different slots their order does not matter.  Both hold for
    the whole world, registry and store. *)
Theorem mutators_compose (P : Platform) (mu1 mu2 : Mutator) (w : World) :
  (target mu1 = target mu2 ->
   after (mutate P mu1 ;; mutate P mu2) w = after (mutate P mu2) w)
  /\ (target mu1 <> target mu2 ->
      after (mutate P mu1 ;; mutate P mu2) w =
        after (mutate P mu2 ;; mutate P mu1) w).
Proof.
  split; intros Ht; destruct mu1, mu2; simpl in Ht;
    solve [reflexivity | discriminate Ht | by destruct Ht].
Qed.

Lemma mutators_compose_witness :
  after (mutate sample_platform (MSetupDefaultFontManager 1) ;;
         mutate sample_platform (MSetDefaultFontManager None)) sample_built =
    after (mutate sample_platform (MSetDefaultFontManager None)) sample_built
  /\ after (mutate sample_platform (MSetTestFontManager (Some 3%positive)) ;;
            mutate sample_platform (MSetDynamicFontManager (Some 1%positive)))
       sample_built =
     after (mutate sample_platform (MSetDynamicFontManager (Some 1%positive)) ;;
            mutate sample_platform (MSetTestFontManager (Some 3%positive)))
       sample_built.
Proof.
  split.
  - apply (proj1 (mutators_compose sample_platform
                    (MSetupDefaultFontManager 1) (MSetDefaultFontManager None)
                    sample_built)).
    reflexivity.
  - apply (proj2 (mutators_compose sample_platform
                    (MSetTestFontManager (Some 3%positive))
                    (MSetDynamicFontManager (Some 1%positive)) sample_built)).
    discriminate.
Defined.

(** ** What changes the provider order *)

Lemma order_by_slots (r r' : txt.FontCollection) :
  (forall s : Slot, slot s r' = slot s r) ->
  GetFontManagerOrder r' = GetFontManagerOrder r.
Proof.
  intros Hs. rewrite !GetFontManagerOrder_spec.
  unfold ComputeProviderOrder. by apply omap_pointwise.
Qed.

(** X5. Only the slot mutators change what [GetFontManagerOrder] and
    [GetFontManagersCount] return: [DisableFontFallback],
    [ClearFontFamilyCache] and [CreateSktFontCollection] leave the order as it
    was, and a mutator moves the count by the new handle's presence minus the
    old one's (up by one when it fills an empty slot, down by one when it
    nulls a filled one, unchanged otherwise). *)
Theorem order_changes_only_by_mutators (P : Platform) (w : World)
    (mu : Mutator) :
  GetFontManagerOrder (self (after DisableFontFallback w)) =
    GetFontManagerOrder (self w)
  /\ GetFontManagerOrder (self (after ClearFontFamilyCache w)) =
       GetFontManagerOrder (self w)
  /\ GetFontManagerOrder (self (after (CreateSktFontCollection P) w)) =
       GetFontManagerOrder (self w)
  /\ GetFontManagersCount (self (after (mutate P mu) w))
       + match slot (target mu) (self w) with Some _ => 1 | None => 0 end =
     GetFontManagersCount (self w)
       + match assigned P mu with Some _ => 1 | None => 0 end.
Proof.
  split; [|split; [|split]].
  - apply order_by_slots. intros s.
    apply (step_slot P ODisableFontFallback).
  - apply order_by_slots. intros s.
    apply (step_slot P OClearFontFamilyCache).
  - apply order_by_slots. intros s. rewrite <- step_Create.
    apply (step_slot P OCreateSktFontCollection).
  - destruct w as [[d a y t e c] st].
    unfold GetFontManagersCount, GetFontManagerOrder, push_back_if.
    destruct mu as [data|m|m|m|m]; simpl;
      [destruct (GetDefaultFontManager P data)|destruct m..];
      destruct d, a, y, t; reflexivity.
Qed.

(** ** Handles shared between slots *)

Lemma NoDup_omap_inj {A B : Type} (f : A -> option B) (l : list A) :
  NoDup l ->
  NoDup (omap f l) <->
  (forall (x y : A) (m : B),
     x ∈ l -> y ∈ l -> f x = Some m -> f y = Some m -> x = y).
Proof.
  induction 1 as [|a l Ha Hl IH].
  - split; [|constructor]. intros _ x y m Hx. by apply elem_of_nil in Hx.
  - assert (omap f (a :: l) =
            match f a with Some b => b :: omap f l | None => omap f l end)
      as -> by reflexivity.
    destruct (f a) as [b|] eqn:Hfa.
    + rewrite NoDup_cons, list_elem_of_omap, IH. split.
      * intros [Hb Hinj] x y m Hx Hy Hfx Hfy.
        apply elem_of_cons in Hx as [->|Hx], Hy as [->|Hy].
        -- done.
        -- destruct Hb. exists y. split; [done|congruence].
        -- destruct Hb. exists x. split; [done|congruence].
        -- by apply (Hinj x y m).
      * intros Hinj. split.
        -- intros (y & Hy & Hfy). destruct Ha.
           rewrite (Hinj a y b); [done|left|by right|done|done].
        -- intros x y m Hx Hy. apply Hinj; by right.
    + rewrite IH. split.
      * intros Hinj x y m Hx Hy Hfx Hfy.
        apply elem_of_cons in Hx as [->|Hx], Hy as [->|Hy];
          try congruence.
        by apply (Hinj x y m).
      * intros Hinj x y m Hx Hy. apply Hinj; by right.
Qed.

Lemma NoDup_priority : NoDup priority.
Proof.
  unfold priority. repeat (apply NoDup_cons; split);
    try apply NoDup_nil_2;
    intros Hin; repeat (apply elem_of_cons in Hin as [Hin|Hin]; [done|]);
    by apply elem_of_nil in Hin.
Qed.

Lemma elem_of_priority (s : Slot) : s ∈ priority.
Proof. unfold priority. destruct s; repeat constructor. Qed.

(** X6. [GetFontManagerOrder] does not deduplicate: its result is free of
    repetitions exactly when no handle sits in two slots.  A font manager
    assigned to two slots is listed, and counted, twice. *)
Theorem order_NoDup_iff (r : txt.FontCollection) :
  NoDup (GetFontManagerOrder r) <->
  (forall (s1 s2 : Slot) (m : SkFontMgr),
     slot s1 r = Some m -> slot s2 r = Some m -> s1 = s2).
Proof.
  rewrite GetFontManagerOrder_spec. unfold ComputeProviderOrder.
  rewrite (NoDup_omap_inj _ _ NoDup_priority). split.
  - intros Hinj s1 s2 m. apply Hinj; apply elem_of_priority.
  - intros Hinj s1 s2 m _ _. apply Hinj.
Qed.

(** ** Commuting operations *)

Lemma result_bind {A B : Type} (m : M A) (k : M B) (w : World) :
  result (m ;; k) w = result k (after m w).
Proof. unfold result, after, bind. by destruct (m w). Qed.

Lemma built_disable (P : Platform) (r : txt.FontCollection) :
  built P (set_enable_font_fallback_ false r) =
    skt.disableFontFallback (built P r).
Proof. unfold built. by destruct (enable_font_fallback_ r). Qed.

(** X7. Disabling fallback before or after [CreateSktFontCollection] gives
    the same world and the same returned collection: toggling a built
    collection in place has the effect of building it with the flag already
    cleared. *)
Theorem Disable_Create_commute (P : Platform) (w : World) :
  after (DisableFontFallback ;; CreateSktFontCollection P) w =
    after (CreateSktFontCollection P ;; DisableFontFallback) w
  /\ result (DisableFontFallback ;; CreateSktFontCollection P) w =
       result (CreateSktFontCollection P) w.
Proof.
  rewrite result_bind, !after_bind.
  destruct (skt_collection_ (self w)) as [p|] eqn:Hp.
  - rewrite (Disable_cached w p Hp).
    unfold after at 1 3, result. rewrite !(Create_cached P _ p) by done.
    simpl. by rewrite (Disable_cached w p Hp).
  - rewrite (Disable_absent w Hp).
    rewrite (after_Create_build P w Hp).
    rewrite !result_Create_build, after_Create_build by done.
    rewrite (Disable_cached _ (length (store w))) by done. simpl.
    by rewrite alter_snoc, built_disable.
Qed.

(** X8. [DisableFontFallback] and [ClearFontFamilyCache] commute, and each
    of them done twice is as done once (equal worlds). *)
Theorem Disable_Clear_compose (w : World) :
  after (DisableFontFallback ;; ClearFontFamilyCache) w =
    after (ClearFontFamilyCache ;; DisableFontFallback) w
  /\ after (DisableFontFallback ;; DisableFontFallback) w =
       after DisableFontFallback w
  /\ after (ClearFontFamilyCache ;; ClearFontFamilyCache) w =
       after ClearFontFamilyCache w.
Proof.
  rewrite !after_bind.
  destruct (skt_collection_ (self w)) as [p|] eqn:Hp.
  - rewrite (Disable_cached w p Hp), (Clear_cached w p Hp).
    rewrite !(Clear_cached _ p), !(Disable_cached _ p) by done. simpl.
    rewrite !list_alter_alter_eq. by destruct (self w).
  - rewrite (Disable_absent w Hp), (Clear_absent w Hp).
    rewrite (Clear_absent _), (Clear_absent w Hp), !(Disable_absent _)
      by done.
    by destruct (self w).
Qed.

(** ** Between two mutators *)

Lemma step_keeps_cache (P : Platform) (o : Op) (w : World) (p : addr) :
  skt_collection_ (self w) = Some p ->
  is_mutator o = false ->
  skt_collection_ (self (after (step P o) w)) = Some p
  /\ length (store (after (step P o) w)) = length (store w).
Proof.
  intros Hp Ho. rewrite step_cache, step_store, Hp.
  destruct o as [mu| | |]; [discriminate Ho|..]; simpl;
    by rewrite ?length_alter.
Qed.

(** X9. While no slot mutator is called, the registry keeps the collection
    it holds: after any interleaving of [DisableFontFallback],
    [ClearFontFamilyCache] and [CreateSktFontCollection], in any number,
    [skt_collection_] is the same pointer, [CreateSktFontCollection] returns
    it, and no collection has been made. *)
Theorem cache_stable_without_mutators (P : Platform) (ops : list Op)
    (w : World) (p : addr) :
  skt_collection_ (self w) = Some p ->
  mutators ops = 0 ->
  skt_collection_ (self (after (run P ops) w)) = Some p
  /\ result (CreateSktFontCollection P) (after (run P ops) w) = Some p
  /\ length (store (after (run P ops) w)) = length (store w).
Proof.
  intros Hp Hops.
  assert (skt_collection_ (self (after (run P ops) w)) = Some p
          /\ length (store (after (run P ops) w)) = length (store w))
    as [Hp' Hlen].
  { revert w Hp. induction ops as [|o ops IH]; intros w Hp; [done|].
    rewrite mutators_cons in Hops. rewrite after_run_cons.
    destruct (is_mutator o) eqn:Ho; [lia|].
    destruct (step_keeps_cache P o w p Hp Ho) as [Hp1 Hlen1].
    destruct (IH Hops (after (step P o) w) Hp1) as [IH1 IH2].
    split; [done|]. by rewrite IH2. }
  split; [done|]. split; [|done].
  unfold result. by rewrite (Create_cached P _ p).
Qed.

Lemma cache_stable_without_mutators_witness :
  mutators [OClearFontFamilyCache; OCreateSktFontCollection;
            ODisableFontFallback; OCreateSktFontCollection] = 0
  /\ skt_collection_
       (self (after (run sample_platform
                       [OClearFontFamilyCache; OCreateSktFontCollection;
                        ODisableFontFallback; OCreateSktFontCollection])
                sample_built)) = Some 0.
Proof.
  split; [reflexivity|].
  apply (cache_stable_without_mutators sample_platform
           [OClearFontFamilyCache; OCreateSktFontCollection;
            ODisableFontFallback; OCreateSktFontCollection]
           sample_built 0); reflexivity.
Defined.
